(** * HoldenVivaJVC: steering-wheel controls to JVC head unit

    A shallow embedding of [HoldenVivaJVC.ino].  The sketch polls one ADC
    channel, classifies the sample into a button code and emulates the head
    unit's own buttons on five digital lines.

    The sketch is written against the Arduino core ([pinMode],
    [digitalWrite], [analogRead], [delay], [Serial]).  These calls are
    modelled on a board whose pins carry a data-direction bit and an output
    latch, as on the AVR; every call is also recorded in a chronological
    log so that edge sequences and timing can be read back.  The ADC is a
    script of samples, one consumed per [analogRead]. *)

From Stdlib Require Import ZArith List Bool String Lia.
Import ListNotations.
Open Scope Z_scope.

(** ** The board *)

Module Hw.

Inductive PinMode := INPUT | OUTPUT.
Inductive Level := LOW | HIGH.

Definition PinMode_eqb (a b : PinMode) : bool :=
  match a, b with
  | INPUT, INPUT | OUTPUT, OUTPUT => true
  | _, _ => false
  end.

Definition Level_eqb (a b : Level) : bool :=
  match a, b with
  | LOW, LOW | HIGH, HIGH => true
  | _, _ => false
  end.

(** One pin: the direction bit (DDRx) and the output latch (PORTx). *)
Record PinCfg := { mode : PinMode; latch : Level }.

(** What the wire sees: nothing while the pin is an input, the latch while
    it is an output. *)
Inductive Line := HiZ | Driven (l : Level).

Definition line_of (c : PinCfg) : Line :=
  match mode c with
  | INPUT => HiZ
  | OUTPUT => Driven (latch c)
  end.

Definition Line_eqb (a b : Line) : bool :=
  match a, b with
  | HiZ, HiZ => true
  | Driven x, Driven y => Level_eqb x y
  | _, _ => false
  end.

Definition Board := Z -> PinCfg.

Definition upd (p : Z) (c : PinCfg) (b : Board) : Board :=
  fun q => if q =? p then c else b q.

(** After reset every pin is an input with a cleared latch. *)
Definition reset_board : Board := fun _ => {| mode := INPUT; latch := LOW |}.

(** The calls the sketch makes, as they appear in the log. *)
Inductive Event :=
| EvSerialBegin (baud : Z)
| EvPrintln (s : string)
| EvPinMode (pin : Z) (m : PinMode)
| EvWrite (pin : Z) (l : Level)
| EvRead (pin : Z) (v : Z)
| EvDelay (ms : Z).

(** Effect of one call on the pins.  [pinMode(p, INPUT)] clears the
    direction bit and the latch (no pull-up); [pinMode(p, OUTPUT)] sets the
    direction bit only; [digitalWrite] stores the level in the latch
    whatever the direction. *)
Definition apply_event (e : Event) (b : Board) : Board :=
  match e with
  | EvPinMode p INPUT => upd p {| mode := INPUT; latch := LOW |} b
  | EvPinMode p OUTPUT => upd p {| mode := OUTPUT; latch := latch (b p) |} b
  | EvWrite p l => upd p {| mode := mode (b p); latch := l |} b
  | _ => b
  end.

Definition replay (es : list Event) (b : Board) : Board :=
  fold_left (fun acc e => apply_event e acc) es b.

(** The machine: pins, the samples the ADC will still deliver, the
    sketch's global [currentButton], and the log. *)
Record World := {
  board : Board;
  input : list Z;
  currentButton : Z;
  log : list Event
}.

(** A computation may block for ever on an exhausted script: [None]. *)
Definition M (A : Type) : Type := World -> option (A * World).

Definition ret {A} (a : A) : M A := fun w => Some (a, w).

Definition bind {A B} (m : M A) (k : A -> M B) : M B :=
  fun w => match m w with
           | Some (a, w') => k a w'
           | None => None
           end.

(** A call that touches only the pins and the log. *)
Definition hw (e : Event) : M unit :=
  fun w => Some (tt, {| board := apply_event e (board w);
                        input := input w;
                        currentButton := currentButton w;
                        log := log w ++ [e] |}).

Definition pinMode (pin : Z) (m : PinMode) : M unit := hw (EvPinMode pin m).
Definition digitalWrite (pin : Z) (l : Level) : M unit := hw (EvWrite pin l).
Definition delay (ms : Z) : M unit := hw (EvDelay ms).
Definition Serial_begin (baud : Z) : M unit := hw (EvSerialBegin baud).
Definition Serial_println (s : string) : M unit := hw (EvPrintln s).

Definition analogRead (pin : Z) : M Z :=
  fun w => match input w with
           | [] => None
           | s :: rest =>
               Some (s, {| board := board w;
                           input := rest;
                           currentButton := currentButton w;
                           log := log w ++ [EvRead pin s] |})
           end.

Definition get_currentButton : M Z := fun w => Some (currentButton w, w).

Definition set_currentButton (v : Z) : M unit :=
  fun w => Some (tt, {| board := board w;
                        input := input w;
                        currentButton := v;
                        log := log w |}).

(** [if (c) { body }] without an else branch. *)
Definition when_ (c : bool) (body : M unit) : M unit :=
  if c then body else ret tt.

(** [while (cond) { body }], cut off after [fuel] evaluations of [cond]. *)
Fixpoint while_fuel (fuel : nat) (cond : M bool) (body : M unit) : M unit :=
  match fuel with
  | O => fun _ => None
  | S n =>
      bind cond (fun c =>
        if c then bind body (fun _ => while_fuel n cond body) else ret tt)
  end.

(** Every loop condition of the sketch polls the ADC, so a script of [n]
    samples admits at most [n] successful evaluations. *)
Definition while_ (cond : M bool) (body : M unit) : M unit :=
  fun w => while_fuel (S (List.length (input w))) cond body w.

End Hw.

Import Hw.

Notation "x <- m ;; k" := (bind m (fun x => k))
  (at level 61, m at next level, right associativity).
Notation "m ;; k" := (bind m (fun _ => k))
  (at level 61, right associativity).

(** ** The sketch *)

(** [A0] on the Uno (pins_arduino.h); only ever passed to [analogRead]. *)
Definition A0 : Z := 14.

Definition sensorPin : Z := A0.

Definition powerPin : Z := 9.
Definition modePin : Z := 2.
Definition seekPin : Z := 7.
Definition volAPin : Z := 6.
Definition volBPin : Z := 5.

(** The button codes of the header comment: 0 none, 1 Vol Down, 2 Vol Up,
    3 Seek, 4 Mode, 5 Pwr. *)
Inductive Button := BNone | VolumeDown | VolumeUp | Seek | Mode | Power.

Definition button_of_code (c : Z) : option Button :=
  if c =? 0 then Some BNone
  else if c =? 1 then Some VolumeDown
  else if c =? 2 then Some VolumeUp
  else if c =? 3 then Some Seek
  else if c =? 4 then Some Mode
  else if c =? 5 then Some Power
  else None.

Definition setup : M unit :=
  Serial_begin 57600 ;;
  pinMode powerPin INPUT ;;
  pinMode modePin INPUT ;;
  pinMode seekPin INPUT ;;
  pinMode volAPin OUTPUT ;;
  pinMode volBPin OUTPUT ;;
  digitalWrite volAPin LOW ;;
  digitalWrite volBPin LOW.

(** The comparison chain of [getButton] on the sample [s]. *)
Definition classify (s : Z) : Z :=
  if s <? 244 then 1
  else if (s >? 244) && (s <? 619) then 2
  else if (s >? 619) && (s <? 796) then 3
  else if (s >? 796) && (s <? 907) then 4
  else if (s >? 907) && (s <? 988) then 5
  else 0.

Definition getButton : M Z :=
  s <- analogRead sensorPin ;;
  ret (classify s).

Definition setupVolume : M unit :=
  pinMode volAPin OUTPUT ;;
  pinMode volBPin OUTPUT ;;
  digitalWrite volAPin LOW ;;
  digitalWrite volBPin LOW.

Definition resetVolume : M unit :=
  pinMode volAPin INPUT ;;
  pinMode volBPin INPUT.

Definition volumeDown : M unit :=
  setupVolume ;;
  digitalWrite volBPin HIGH ;;
  delay 10 ;;
  digitalWrite volAPin HIGH ;;
  delay 10 ;;
  digitalWrite volBPin LOW ;;
  delay 10 ;;
  digitalWrite volAPin LOW ;;
  delay 10 ;;
  resetVolume.

Definition volumeUp : M unit :=
  setupVolume ;;
  digitalWrite volAPin HIGH ;;
  delay 10 ;;
  digitalWrite volBPin HIGH ;;
  delay 10 ;;
  digitalWrite volAPin LOW ;;
  delay 10 ;;
  digitalWrite volBPin LOW ;;
  delay 10 ;;
  resetVolume.

(** [if (currentButton == code) { body }]: the guard reads the global. *)
Definition if_currentButton (code : Z) (body : M unit) : M unit :=
  cb <- get_currentButton ;;
  when_ (cb =? code) body.

(** [while (getButton() == code) { delay(50); }] *)
Definition wait_release (code : Z) : M unit :=
  while_ (b <- getButton ;; ret (b =? code)) (delay 50).

Definition loop : M unit :=
  b <- getButton ;;
  set_currentButton b ;;
  cb <- get_currentButton ;;
  when_ (negb (cb =? 0))
    (if_currentButton 1
       (Serial_println "Volume Down"%string ;;
        volumeDown ;;
        delay 50) ;;
     if_currentButton 2
       (Serial_println "Volume Up"%string ;;
        volumeUp ;;
        delay 50) ;;
     if_currentButton 3
       (Serial_println "Seek: Down"%string ;;
        pinMode seekPin OUTPUT ;;
        digitalWrite seekPin LOW ;;
        wait_release 3 ;;
        Serial_println "Seek: Up"%string ;;
        digitalWrite seekPin HIGH ;;
        pinMode seekPin INPUT) ;;
     if_currentButton 4
       (Serial_println "Mode: Down"%string ;;
        pinMode modePin OUTPUT ;;
        digitalWrite modePin LOW ;;
        wait_release 4 ;;
        Serial_println "Mode: Up"%string ;;
        digitalWrite modePin HIGH ;;
        pinMode modePin INPUT) ;;
     if_currentButton 5
       (Serial_println "Power: Down"%string ;;
        pinMode powerPin OUTPUT ;;
        digitalWrite powerPin LOW ;;
        wait_release 5 ;;
        Serial_println "Power: Up"%string ;;
        digitalWrite powerPin HIGH ;;
        pinMode powerPin INPUT)) ;;
  delay 100.

(** Power-on: reset pins, [currentButton = 0], an ADC script. *)
Definition power_on (script : list Z) : World :=
  {| board := reset_board; input := script; currentButton := 0; log := [] |}.

(** States between iterations of the main loop. *)
Inductive reachable : World -> Prop :=
| reach_setup script w :
    setup (power_on script) = Some (tt, w) -> reachable w
| reach_loop w w' :
    reachable w -> loop w = Some (tt, w') -> reachable w'.

(** ** The classifier as the specification words it

    Half-open bands delimited by T1..T5; kept apart from [classify] and
    only compared with it. *)
Module Bands.

Definition T1 : Z := 244.
Definition T2 : Z := 619.
Definition T3 : Z := 796.
Definition T4 : Z := 907.
Definition T5 : Z := 988.

Definition classify_spec (s : Z) : Button :=
  if s <? T1 then VolumeDown
  else if s <? T2 then VolumeUp
  else if s <? T3 then Seek
  else if s <? T4 then Mode
  else if s <? T5 then Power
  else BNone.

Definition is_interior_threshold (s : Z) : bool :=
  (s =? T1) || (s =? T2) || (s =? T3) || (s =? T4).

End Bands.

(** ** Reading the log *)

Definition elapsed (es : list Event) : Z :=
  fold_right (fun e acc => match e with EvDelay ms => ms + acc | _ => acc end)
             0 es.

(** Time until the next call that touches a pin. *)
Fixpoint quiet_ms (es : list Event) : Z :=
  match es with
  | EvDelay ms :: es' => ms + quiet_ms es'
  | EvPrintln _ :: es' | EvRead _ _ :: es' | EvSerialBegin _ :: es' =>
      quiet_ms es'
  | _ => 0
  end.

(** An edge: a [digitalWrite] that flips the level of a driven line. *)
Record Edge := {
  at_ms : Z;        (* time since the start of the log *)
  on_pin : Z;
  to_level : Level;
  hold_ms : Z       (* time the new level then stays untouched *)
}.

Fixpoint edges_from (b : Board) (t : Z) (es : list Event) : list Edge :=
  match es with
  | [] => []
  | e :: es' =>
      let t' := match e with EvDelay ms => t + ms | _ => t end in
      let later := edges_from (apply_event e b) t' es' in
      match e with
      | EvWrite p l =>
          if PinMode_eqb (mode (b p)) OUTPUT
             && negb (Level_eqb (latch (b p)) l)
          then {| at_ms := t; on_pin := p; to_level := l;
                  hold_ms := quiet_ms es' |} :: later
          else later
      | _ => later
      end
  end.

Definition edges (b : Board) (es : list Event) : list Edge :=
  edges_from b 0 es.

(** Exchange the two encoder lines. *)
Definition swap_vol (p : Z) : Z :=
  if p =? volAPin then volBPin else if p =? volBPin then volAPin else p.

Definition swap_edge (e : Edge) : Edge :=
  {| at_ms := at_ms e; on_pin := swap_vol (on_pin e);
     to_level := to_level e; hold_ms := hold_ms e |}.

(** The state of the wire on pin [p] after each call of a log. *)
Fixpoint line_history (p : Z) (b : Board) (es : list Event) : list Line :=
  match es with
  | [] => []
  | e :: es' =>
      let b' := apply_event e b in
      line_of (b' p) :: line_history p b' es'
  end.

Fixpoint changes (prev : Line) (ls : list Line) : list Line :=
  match ls with
  | [] => []
  | l :: ls' =>
      if Line_eqb prev l then changes prev ls' else l :: changes l ls'
  end.

(** The successive states the wire on [p] moves to during a log. *)
Definition transitions (p : Z) (b : Board) (es : list Event) : list Line :=
  changes (line_of (b p)) (line_history p b es).

(** Every action branch of [loop] opens with its own diagnostic line. *)
Definition action_of_line (s : string) : option Button :=
  if String.eqb s "Volume Down" then Some VolumeDown
  else if String.eqb s "Volume Up" then Some VolumeUp
  else if String.eqb s "Seek: Down" then Some Seek
  else if String.eqb s "Mode: Down" then Some Mode
  else if String.eqb s "Power: Down" then Some Power
  else None.

Fixpoint dispatched (es : list Event) : list Button :=
  match es with
  | [] => []
  | EvPrintln s :: es' =>
      match action_of_line s with
      | Some b => b :: dispatched es'
      | None => dispatched es'
      end
  | _ :: es' => dispatched es'
  end.

(** The calls of a release wait: one read and one 50 ms delay per sample
    still in the band, then the read that ends it. *)
Definition hold_events (held : list Z) : list Event :=
  flat_map (fun s => [EvRead sensorPin s; EvDelay 50]) held.

Definition idle_pin : PinCfg := {| mode := INPUT; latch := LOW |}.

(** The line a level-held button pulls low. *)
Definition held_pin (code : Z) : Z :=
  if code =? 3 then seekPin
  else if code =? 4 then modePin
  else powerPin.

Definition output_pins : list Z :=
  [powerPin; modePin; seekPin; volAPin; volBPin].

(** The calls each routine is expected to make, in order. *)
Definition setup_events : list Event :=
  [EvSerialBegin 57600; EvPinMode powerPin INPUT; EvPinMode modePin INPUT;
   EvPinMode seekPin INPUT; EvPinMode volAPin OUTPUT;
   EvPinMode volBPin OUTPUT; EvWrite volAPin LOW; EvWrite volBPin LOW].

Definition setupVolume_events : list Event :=
  [EvPinMode volAPin OUTPUT; EvPinMode volBPin OUTPUT;
   EvWrite volAPin LOW; EvWrite volBPin LOW].

Definition resetVolume_events : list Event :=
  [EvPinMode volAPin INPUT; EvPinMode volBPin INPUT].

Definition volumeUp_events : list Event :=
  setupVolume_events
  ++ [EvWrite volAPin HIGH; EvDelay 10; EvWrite volBPin HIGH; EvDelay 10;
      EvWrite volAPin LOW; EvDelay 10; EvWrite volBPin LOW; EvDelay 10]
  ++ resetVolume_events.

Definition volumeDown_events : list Event :=
  setupVolume_events
  ++ [EvWrite volBPin HIGH; EvDelay 10; EvWrite volAPin HIGH; EvDelay 10;
      EvWrite volBPin LOW; EvDelay 10; EvWrite volAPin LOW; EvDelay 10]
  ++ resetVolume_events.

Definition down_line (code : Z) : string :=
  if code =? 3 then "Seek: Down"
  else if code =? 4 then "Mode: Down"
  else "Power: Down".

Definition up_line (code : Z) : string :=
  if code =? 3 then "Seek: Up"
  else if code =? 4 then "Mode: Up"
  else "Power: Up".

Definition down_events (code s : Z) : list Event :=
  [EvRead sensorPin s; EvPrintln (down_line code);
   EvPinMode (held_pin code) OUTPUT; EvWrite (held_pin code) LOW].

Definition up_events (code : Z) : list Event :=
  [EvPrintln (up_line code); EvWrite (held_pin code) HIGH;
   EvPinMode (held_pin code) INPUT; EvDelay 100].

Definition press_events (code s : Z) (held : list Z) (rel : Z) : list Event :=
  down_events code s
  ++ (hold_events held ++ [EvRead sensorPin rel])
  ++ up_events code.

(** The machine after the calls [es], input and [currentButton] aside. *)
Definition after (es : list Event) (w : World) : World :=
  {| board := replay es (board w); input := input w;
     currentButton := currentButton w; log := log w ++ es |}.

(** Between two actions: the three level-held lines are released with a
    cleared latch, and the two encoder latches are low. *)
Definition held_lines_idle (b : Board) : Prop :=
  b powerPin = idle_pin /\ b modePin = idle_pin /\ b seekPin = idle_pin.

Definition vol_latches_low (b : Board) : Prop :=
  latch (b volAPin) = LOW /\ latch (b volBPin) = LOW.

Definition between_actions (b : Board) : Prop :=
  held_lines_idle b /\ vol_latches_low b.

(** ** Running several iterations *)

(** [n] consecutive calls of [loop()], as the core's [main] makes them. *)
Fixpoint loops (n : nat) : M unit :=
  match n with
  | O => ret tt
  | S k => loop ;; loops k
  end.


Definition is_encoder_pin (p : Z) : bool := (p =? volAPin) || (p =? volBPin).

Definition is_volume (b : Button) : bool :=
  match b with
  | VolumeDown | VolumeUp => true
  | _ => false
  end.

(** Whether the call [e] writes the direction or the latch of pin [p]. *)
Definition touches (p : Z) (e : Event) : bool :=
  match e with
  | EvPinMode q _ | EvWrite q _ => q =? p
  | _ => false
  end.

Definition is_read (e : Event) : bool :=
  match e with
  | EvRead _ _ => true
  | _ => false
  end.

(** What the encoder pins look like after [setup]. *)
Definition driven_low : PinCfg := {| mode := OUTPUT; latch := LOW |}.

(** The action and the duration of an iteration whose sample is in no
    level-held band. *)
Definition pulse_of (s : Z) : list Button :=
  if classify s =? 1 then [VolumeDown]
  else if classify s =? 2 then [VolumeUp]
  else [].

Definition pulse_ms (s : Z) : Z :=
  if (classify s =? 1) || (classify s =? 2) then 190 else 100.

(** ** The classifier *)

Lemma classify_codes (s : Z) : 0 <= classify s <= 5.
Proof.
  unfold classify.
  repeat match goal with
         | |- context [if ?c then _ else _] => destruct c
         end; lia.
Qed.

Lemma classify_button (s : Z) : button_of_code (classify s) <> None.
Proof.
  unfold classify.
  repeat match goal with
         | |- context [if ?c then _ else _] => destruct c
         end; cbn; discriminate.
Qed.

Lemma classify_off_thresholds (s : Z) :
  Bands.is_interior_threshold s = false ->
  button_of_code (classify s) = Some (Bands.classify_spec s).
Proof.
  unfold Bands.is_interior_threshold, Bands.classify_spec, classify,
    Bands.T1, Bands.T2, Bands.T3, Bands.T4, Bands.T5.
  intros H.
  repeat (apply orb_false_elim in H; destruct H as [H ?]).
  repeat match goal with
         | H : (_ =? _) = false |- _ => apply Z.eqb_neq in H
         end.
  repeat match goal with
         | |- context [?a <? ?b] => destruct (Z.ltb_spec a b)
         | |- context [?a >? ?b] =>
             rewrite (Z.gtb_ltb a b); destruct (Z.ltb_spec b a)
         end; cbn; try reflexivity; lia.
Qed.

Lemma getButton_run w s rest :
  input w = s :: rest ->
  getButton w =
  Some (classify s, {| board := board w; input := rest;
                       currentButton := currentButton w;
                       log := log w ++ [EvRead sensorPin s] |}).
Proof.
  intros H. unfold getButton, bind, analogRead, ret. rewrite H. reflexivity.
Qed.

(** C1: a sample exactly equal to a calibration threshold.  Evaluated on
    the code, 244, 619, 796 and 907 are rejected by both neighbouring
    comparisons ([s < 244] and [s > 244 && s < 619], and so on) and fall
    through to [return 0]: they classify as None, not as the higher band
    (VolumeUp, Seek, Mode, Power) the half-open convention prescribes.
    Only 988 behaves as stated (None). *)
Theorem getButton_on_thresholds :
  map (fun s => button_of_code (classify s)) [244; 619; 796; 907; 988]
  = [Some BNone; Some BNone; Some BNone; Some BNone; Some BNone]
  /\ map Bands.classify_spec [244; 619; 796; 907; 988]
     = [VolumeUp; Seek; Mode; Power; BNone].
Proof. split; reflexivity. Qed.

(** C2: the bands over the sample range.  Every sample classifies to one
    of the six identities, and the result is the half-open band of the
    specification everywhere except at the four interior thresholds 244,
    619, 796 and 907, where the code answers None: the bands of the code
    have one-sample gaps, so they do not partition 0..1023 as the cut
    points prescribe (243 is VolumeDown, 245 is VolumeUp, 244 is None). *)
Theorem classify_band_gaps :
  (forall s,
      button_of_code (classify s)
      = Some (if Bands.is_interior_threshold s then BNone
              else Bands.classify_spec s))
  /\ map (fun s => button_of_code (classify s)) [243; 244; 245]
     = [Some VolumeDown; Some BNone; Some VolumeUp]
  /\ map Bands.classify_spec [243; 244; 245]
     = [VolumeDown; VolumeUp; VolumeUp].
Proof.
  split; [| split; reflexivity].
  intros s. destruct (Bands.is_interior_threshold s) eqn:E.
  - unfold Bands.is_interior_threshold in E.
    repeat (apply orb_true_iff in E; destruct E as [E | E]);
      apply Z.eqb_eq in E; subst s; reflexivity.
  - now apply classify_off_thresholds.
Qed.

(** C7: the six mid-band samples of scenario 1: 100 is VolumeDown, 500 is
    VolumeUp, 700 is Seek, 850 is Mode, 950 is Power and 1000 is None, both
    as the pure comparison chain and as [getButton] run on an ADC that
    delivers the sample. *)
Theorem classify_scenario :
  map (fun s => button_of_code (classify s)) [100; 500; 700; 850; 950; 1000]
  = [Some VolumeDown; Some VolumeUp; Some Seek; Some Mode; Some Power;
     Some BNone]
  /\ forall w rest,
      map (fun s =>
             option_map fst
               (getButton {| board := board w; input := s :: rest;
                             currentButton := currentButton w;
                             log := log w |}))
          [100; 500; 700; 850; 950; 1000]
      = [Some 1; Some 2; Some 3; Some 4; Some 5; Some 0].
Proof. split; [reflexivity | intros w rest; reflexivity]. Qed.

(** C8: [getButton] is a pure function of the sample.  In any two machine
    states whose ADC delivers the same sample next, it returns the same
    code, [classify s]; pins, [currentButton], the log and the rest of the
    script have no influence on it, and it changes neither the pins nor
    [currentButton]. *)
Theorem getButton_pure w1 w2 s r1 r2 :
  input w1 = s :: r1 ->
  input w2 = s :: r2 ->
  exists w1' w2',
    getButton w1 = Some (classify s, w1')
    /\ getButton w2 = Some (classify s, w2')
    /\ board w1' = board w1 /\ currentButton w1' = currentButton w1
    /\ board w2' = board w2 /\ currentButton w2' = currentButton w2.
Proof.
  intros H1 H2.
  rewrite (getButton_run _ _ _ H1), (getButton_run _ _ _ H2).
  do 2 eexists. repeat split.
Qed.

Lemma getButton_pure_witness :
  exists w1' w2',
    getButton (power_on [700; 100]) = Some (classify 700, w1')
    /\ getButton {| board := upd seekPin {| mode := OUTPUT; latch := HIGH |}
                               reset_board;
                    input := [700]; currentButton := 5;
                    log := [EvDelay 100] |} = Some (classify 700, w2')
    /\ board w1' = board (power_on [700; 100])
    /\ currentButton w1' = currentButton (power_on [700; 100])
    /\ board w2' = upd seekPin {| mode := OUTPUT; latch := HIGH |} reset_board
    /\ currentButton w2' = 5.
Proof.
  exact (getButton_pure (power_on [700; 100])
           {| board := upd seekPin {| mode := OUTPUT; latch := HIGH |}
                         reset_board;
              input := [700]; currentButton := 5; log := [EvDelay 100] |}
           700 [100] [] eq_refl eq_refl).
Defined.

(** ** Running the sketch *)

Arguments classify : simpl never.
Arguments wait_release : simpl never.

Ltac norm_log := repeat rewrite <- app_assoc; cbn [app].

Lemma replay_app es1 es2 b : replay (es1 ++ es2) b = replay es2 (replay es1 b).
Proof. unfold replay. apply fold_left_app. Qed.

Lemma replay_hold held b : replay (hold_events held) b = b.
Proof. induction held as [| s held IH]; cbn; [reflexivity | exact IH]. Qed.

(** *** The release wait *)

Lemma while_fuel_S n cond body w :
  while_fuel (S n) cond body w =
  match cond w with
  | Some (true, w1) =>
      match body w1 with
      | Some (_, w2) => while_fuel n cond body w2
      | None => None
      end
  | Some (false, w1) => Some (tt, w1)
  | None => None
  end.
Proof.
  cbn [while_fuel]. unfold bind, ret.
  destruct (cond w) as [[[|] w1] |]; reflexivity.
Qed.

Lemma still_held_run code w s rest :
  input w = s :: rest ->
  (x <- getButton ;; ret (x =? code)) w =
  Some (classify s =? code,
        {| board := board w; input := rest;
           currentButton := currentButton w;
           log := log w ++ [EvRead sensorPin s] |}).
Proof.
  intros H. unfold bind at 1. rewrite (getButton_run _ _ _ H). reflexivity.
Qed.

Lemma still_held_blocked code w :
  input w = [] -> (x <- getButton ;; ret (x =? code)) w = None.
Proof.
  intros H. unfold getButton, bind, analogRead. rewrite H. reflexivity.
Qed.

Lemma wait_fuel_run code held :
  forall rel rest fuel b cb lg,
    Forall (fun s => classify s = code) held ->
    classify rel <> code ->
    (List.length held < fuel)%nat ->
    while_fuel fuel (x <- getButton ;; ret (x =? code)) (delay 50)
      {| board := b; input := held ++ rel :: rest; currentButton := cb;
         log := lg |}
    = Some (tt, {| board := b; input := rest; currentButton := cb;
                   log := lg ++ hold_events held ++ [EvRead sensorPin rel] |}).
Proof.
  induction held as [| s held IH]; intros rel rest fuel b cb lg Hh Hr Hf;
    (destruct fuel as [| n]; [cbn in Hf; lia |]);
    rewrite while_fuel_S;
    erewrite still_held_run by reflexivity.
  - apply Z.eqb_neq in Hr. rewrite Hr. reflexivity.
  - inversion Hh as [| ? ? Hs Hh']; subst.
    rewrite Z.eqb_refl. cbn.
    rewrite IH; [| assumption | assumption | cbn in Hf; lia].
    norm_log. reflexivity.
Qed.

Lemma wait_release_run code held rel rest b cb lg :
  Forall (fun s => classify s = code) held ->
  classify rel <> code ->
  wait_release code
    {| board := b; input := held ++ rel :: rest; currentButton := cb;
       log := lg |}
  = Some (tt, {| board := b; input := rest; currentButton := cb;
                 log := lg ++ hold_events held ++ [EvRead sensorPin rel] |}).
Proof.
  intros Hh Hr. unfold wait_release, while_.
  apply wait_fuel_run; [assumption | assumption |].
  cbn [input]. rewrite length_app. cbn. lia.
Qed.

(** What a release wait can have done if it returns at all. *)
Lemma wait_fuel_inv code fuel :
  forall w w',
    while_fuel fuel (x <- getButton ;; ret (x =? code)) (delay 50) w
    = Some (tt, w') ->
    exists held rel,
      input w = held ++ rel :: input w'
      /\ Forall (fun s => classify s = code) held
      /\ classify rel <> code
      /\ board w' = board w
      /\ currentButton w' = currentButton w
      /\ log w' = log w ++ hold_events held ++ [EvRead sensorPin rel].
Proof.
  induction fuel as [| n IH]; intros w w' H; [discriminate |].
  rewrite while_fuel_S in H.
  destruct (input w) as [| s rest] eqn:Hi.
  - rewrite (still_held_blocked _ _ Hi) in H. discriminate.
  - rewrite (still_held_run _ _ _ _ Hi) in H.
    destruct (Z.eqb_spec (classify s) code) as [Hs | Hs].
    + cbn in H. apply IH in H.
      destruct H as (held & rel & Hin & Hh & Hr & Hb & Hc & Hl).
      cbn in Hin, Hb, Hc, Hl. exists (s :: held), rel.
      repeat split; try assumption.
      * rewrite Hin. reflexivity.
      * constructor; assumption.
      * rewrite Hl. norm_log. reflexivity.
    + inversion H; subst. exists [], s. cbn.
      repeat split; try assumption. constructor.
Qed.


Lemma wait_release_inv code w w' :
  wait_release code w = Some (tt, w') ->
  exists held rel,
    input w = held ++ rel :: input w'
    /\ Forall (fun s => classify s = code) held
    /\ classify rel <> code
    /\ board w' = board w
    /\ currentButton w' = currentButton w
    /\ log w' = log w ++ hold_events held ++ [EvRead sensorPin rel].
Proof. unfold wait_release, while_. apply wait_fuel_inv. Qed.


Lemma loop_blocked w : input w = [] -> loop w = None.
Proof.
  intros H. unfold loop. unfold bind at 1.
  unfold getButton, bind, analogRead. rewrite H. reflexivity.
Qed.

(** *** Stepping through the monad *)

Lemma bind_assoc {A B C} (m : M A) (f : A -> M B) (g : B -> M C) w :
  bind (bind m f) g w = bind m (fun a => bind (f a) g) w.
Proof. unfold bind. destruct (m w) as [[a w1] |]; reflexivity. Qed.

Lemma bind_ret {A B} (a : A) (k : A -> M B) w : bind (ret a) k w = k a w.
Proof. reflexivity. Qed.

Lemma bind_hw {B} e (k : unit -> M B) w :
  bind (hw e) k w = k tt (after [e] w).
Proof. reflexivity. Qed.

Lemma bind_set {B} v (k : unit -> M B) w :
  bind (set_currentButton v) k w
  = k tt {| board := board w; input := input w; currentButton := v;
            log := log w |}.
Proof. reflexivity. Qed.

Lemma bind_get {B} (k : Z -> M B) w :
  bind get_currentButton k w = k (currentButton w) w.
Proof. reflexivity. Qed.

Lemma bind_if_currentButton {B} code body (k : unit -> M B) w :
  bind (if_currentButton code body) k w
  = if currentButton w =? code then bind body k w else k tt w.
Proof.
  unfold if_currentButton, when_. rewrite bind_assoc, bind_get.
  destruct (currentButton w =? code); reflexivity.
Qed.

Lemma hw_after e w : hw e w = Some (tt, after [e] w).
Proof. reflexivity. Qed.

Lemma after_after es1 es2 w :
  after es2 (after es1 w) = after (es1 ++ es2) w.
Proof.
  unfold after. cbn [board input currentButton log].
  rewrite replay_app, app_assoc. reflexivity.
Qed.

Ltac to_hw :=
  unfold volumeUp, volumeDown, setupVolume, resetVolume, pinMode,
    digitalWrite, delay, Serial_println, Serial_begin.

Ltac mstep :=
  first [ rewrite bind_assoc
        | rewrite bind_hw
        | rewrite bind_set
        | rewrite bind_get
        | rewrite bind_if_currentButton
        | rewrite bind_ret
        | rewrite hw_after ];
  cbv beta;
  rewrite ?after_after;
  cbn [currentButton Z.eqb Pos.eqb negb when_ after].

Ltac poll Hi Hc :=
  unfold loop; unfold bind at 1; rewrite (getButton_run _ _ _ Hi);
  rewrite ?Hc; cbv beta.

Ltac settle :=
  rewrite ?after_after; unfold after;
  cbn [board input currentButton log]; norm_log; reflexivity.

(** *** One iteration of [loop], by the code of its first sample *)

Lemma loop_idle w s rest :
  input w = s :: rest ->
  classify s = 0 ->
  loop w = Some (tt, {| board := board w; input := rest; currentButton := 0;
                        log := log w ++ [EvRead sensorPin s; EvDelay 100] |}).
Proof.
  intros Hi Hc. poll Hi Hc. to_hw. repeat mstep. settle.
Qed.

Lemma loop_volumeDown w s rest :
  input w = s :: rest ->
  classify s = 1 ->
  loop w =
  Some (tt, {| board := replay volumeDown_events (board w); input := rest;
               currentButton := 1;
               log := log w ++ [EvRead sensorPin s; EvPrintln "Volume Down"]
                      ++ volumeDown_events ++ [EvDelay 50; EvDelay 100] |}).
Proof.
  intros Hi Hc. poll Hi Hc. to_hw. repeat mstep. settle.
Qed.

Lemma loop_volumeUp w s rest :
  input w = s :: rest ->
  classify s = 2 ->
  loop w =
  Some (tt, {| board := replay volumeUp_events (board w); input := rest;
               currentButton := 2;
               log := log w ++ [EvRead sensorPin s; EvPrintln "Volume Up"]
                      ++ volumeUp_events ++ [EvDelay 50; EvDelay 100] |}).
Proof.
  intros Hi Hc. poll Hi Hc. to_hw. repeat mstep. settle.
Qed.

Lemma loop_held_unfold code w s rest :
  input w = s :: rest ->
  classify s = code ->
  3 <= code <= 5 ->
  loop w =
  match wait_release code
          {| board := replay (down_events code s) (board w); input := rest;
             currentButton := code; log := log w ++ down_events code s |}
  with
  | Some (_, w4) => Some (tt, after (up_events code) w4)
  | None => None
  end.
Proof.
  intros Hi Hc Hr.
  assert (Hcode : code = 3 \/ code = 4 \/ code = 5) by lia.
  destruct Hcode as [-> | [-> | ->]];
    poll Hi Hc; to_hw; repeat mstep;
    match goal with
    | |- bind (wait_release ?c) ?k ?w3 = _ =>
        replace w3 with
          {| board := replay (down_events c s) (board w); input := rest;
             currentButton := c; log := log w ++ down_events c s |}
          by settle;
        unfold bind at 1;
        destruct (wait_release c
          {| board := replay (down_events c s) (board w); input := rest;
             currentButton := c; log := log w ++ down_events c s |})
          as [[[] w4] |] eqn:E; [| reflexivity]
    end;
    apply wait_release_inv in E;
    destruct E as (held & rel & _ & _ & _ & _ & Hcb & _);
    cbn [currentButton] in Hcb;
    repeat mstep; rewrite ?Hcb; repeat mstep; rewrite ?Hcb; repeat mstep;
    rewrite ?after_after; reflexivity.
Qed.

Lemma replay_polls held rel b :
  replay (hold_events held ++ [EvRead sensorPin rel]) b = b.
Proof. rewrite replay_app, replay_hold. reflexivity. Qed.

Lemma replay_press code s held rel b :
  replay (press_events code s held rel) b
  = replay (up_events code) (replay (down_events code s) b).
Proof.
  unfold press_events. rewrite !replay_app, replay_hold. reflexivity.
Qed.

Lemma loop_held_run code w s held rel rest :
  3 <= code <= 5 ->
  input w = s :: held ++ rel :: rest ->
  classify s = code ->
  Forall (fun x => classify x = code) held ->
  classify rel <> code ->
  loop w =
  Some (tt, {| board := replay (press_events code s held rel) (board w);
               input := rest; currentButton := code;
               log := log w ++ press_events code s held rel |}).
Proof.
  intros Hr Hi Hc Hh Hrel.
  rewrite (loop_held_unfold code w s _ Hi Hc Hr).
  rewrite (wait_release_run code held rel rest _ _ _ Hh Hrel).
  unfold after. cbn [board input currentButton log].
  rewrite replay_press. unfold press_events. norm_log. reflexivity.
Qed.

(** Every iteration that returns is one of the four cases above. *)
Lemma loop_inv w w' :
  loop w = Some (tt, w') ->
  exists s rest,
    input w = s :: rest
    /\ ((classify s = 0
         /\ w' = {| board := board w; input := rest; currentButton := 0;
                    log := log w ++ [EvRead sensorPin s; EvDelay 100] |})
        \/ (classify s = 1
            /\ w' = {| board := replay volumeDown_events (board w);
                       input := rest; currentButton := 1;
                       log := log w
                              ++ [EvRead sensorPin s; EvPrintln "Volume Down"]
                              ++ volumeDown_events
                              ++ [EvDelay 50; EvDelay 100] |})
        \/ (classify s = 2
            /\ w' = {| board := replay volumeUp_events (board w);
                       input := rest; currentButton := 2;
                       log := log w
                              ++ [EvRead sensorPin s; EvPrintln "Volume Up"]
                              ++ volumeUp_events
                              ++ [EvDelay 50; EvDelay 100] |})
        \/ (3 <= classify s <= 5
            /\ exists held rel,
                rest = held ++ rel :: input w'
                /\ Forall (fun x => classify x = classify s) held
                /\ classify rel <> classify s
                /\ w' = {| board := replay (press_events (classify s) s held rel)
                                      (board w);
                           input := input w'; currentButton := classify s;
                           log := log w
                                  ++ press_events (classify s) s held rel |})).
Proof.
  intros H. destruct (input w) as [| s rest] eqn:Hi.
  - rewrite (loop_blocked _ Hi) in H. discriminate.
  - exists s, rest. split; [reflexivity |].
    pose proof (classify_codes s) as Hc.
    assert (Hcase : classify s = 0 \/ classify s = 1 \/ classify s = 2
                    \/ 3 <= classify s <= 5) by lia.
    destruct Hcase as [E | [E | [E | E]]].
    + left. rewrite (loop_idle _ _ _ Hi E) in H. inversion H. auto.
    + right; left. rewrite (loop_volumeDown _ _ _ Hi E) in H.
      inversion H. auto.
    + right; right; left. rewrite (loop_volumeUp _ _ _ Hi E) in H.
      inversion H. auto.
    + right; right; right. split; [assumption |].
      rewrite (loop_held_unfold _ _ _ _ Hi eq_refl E) in H.
      match type of H with
      | context [wait_release ?c ?w3] =>
          destruct (wait_release c w3) as [[[] w4] |] eqn:Ew;
            [| discriminate]
      end.
      inversion H; subst w'; clear H.
      apply wait_release_inv in Ew.
      destruct Ew as (held & rel & Hin & Hh & Hrel & Hb & Hcb & Hl).
      cbn [board input currentButton log] in Hin, Hb, Hcb, Hl.
      exists held, rel. unfold after. cbn [board input currentButton log].
      repeat split; try assumption.
      rewrite Hb, Hcb, Hl, replay_press. unfold press_events. norm_log.
      reflexivity.
Qed.

(** *** What holds between actions *)

Lemma setup_run script :
  setup (power_on script) = Some (tt, after setup_events (power_on script)).
Proof. reflexivity. Qed.

Lemma setup_between_actions script w :
  setup (power_on script) = Some (tt, w) -> between_actions (board w).
Proof.
  rewrite setup_run. intros H. inversion H; subst w; clear H.
  repeat split.
Qed.


Lemma replay_volumeUp b :
  between_actions b -> between_actions (replay volumeUp_events b).
Proof.
  intros [(Hp & Hm & Hs) [Ha Hb]]. repeat split; cbn; assumption.
Qed.

Lemma replay_volumeDown b :
  between_actions b -> between_actions (replay volumeDown_events b).
Proof.
  intros [(Hp & Hm & Hs) [Ha Hb]]. repeat split; cbn; assumption.
Qed.

Lemma replay_press_frame code s held rel b p :
  3 <= code <= 5 ->
  b (held_pin code) = idle_pin ->
  replay (press_events code s held rel) b p = b p.
Proof.
  intros Hr Hidle. rewrite replay_press.
  assert (Hcode : code = 3 \/ code = 4 \/ code = 5) by lia.
  destruct Hcode as [-> | [-> | ->]]; cbn in *; unfold upd;
    match goal with
    | |- context [p =? ?q] => destruct (Z.eqb_spec p q) as [-> |]
    end; cbn; auto.
Qed.

Lemma loop_between_actions w w' :
  loop w = Some (tt, w') ->
  between_actions (board w) -> between_actions (board w').
Proof.
  intros H Hinv. apply loop_inv in H.
  destruct H as (s & rest & Hi & [[E ->] | [[E ->] | [[E ->] | [E H]]]]);
    cbn [board].
  - assumption.
  - now apply replay_volumeDown.
  - now apply replay_volumeUp.
  - destruct H as (held & rel & _ & _ & _ & ->). cbn [board].
    destruct Hinv as [(Hp & Hm & Hs) [Ha Hb]].
    assert (Hidle : board w (held_pin (classify s)) = idle_pin).
    { assert (Hcode : classify s = 3 \/ classify s = 4 \/ classify s = 5)
        by lia.
      destruct Hcode as [-> | [-> | ->]]; assumption. }
    unfold between_actions, held_lines_idle, vol_latches_low.
    rewrite !(replay_press_frame _ _ _ _ _ _ E Hidle). auto.
Qed.

Lemma reachable_between_actions w :
  reachable w -> between_actions (board w).
Proof.
  induction 1 as [script w H | w w' _ IH H].
  - exact (setup_between_actions _ _ H).
  - exact (loop_between_actions _ _ H IH).
Qed.


(** The cut-off of [while_] never fires: any larger fuel gives the same
    result, so [None] always means the script ran out during the wait. *)
Lemma wait_fuel_enough code :
  forall n m w,
    (List.length (input w) < n)%nat ->
    (List.length (input w) < m)%nat ->
    while_fuel n (x <- getButton ;; ret (x =? code)) (delay 50) w
    = while_fuel m (x <- getButton ;; ret (x =? code)) (delay 50) w.
Proof.
  induction n as [| n IH]; intros m w Hn Hm; [lia |].
  destruct m as [| m]; [lia |].
  rewrite !while_fuel_S.
  destruct (input w) as [| s rest] eqn:Hi.
  - rewrite (still_held_blocked _ _ Hi). reflexivity.
  - rewrite (still_held_run _ _ _ _ Hi).
    destruct (classify s =? code); [| reflexivity].
    cbn in Hn, Hm. apply IH; cbn; lia.
Qed.

(** *** The encoder pulses *)

Lemma volumeUp_run w : volumeUp w = Some (tt, after volumeUp_events w).
Proof. to_hw. repeat mstep. settle. Qed.

Lemma volumeDown_run w : volumeDown w = Some (tt, after volumeDown_events w).
Proof. to_hw. repeat mstep. settle. Qed.

Ltac eval_edges :=
  cbv [edges edges_from volumeUp_events volumeDown_events setupVolume_events
       resetVolume_events app apply_event upd volAPin volBPin Z.eqb Pos.eqb
       PinMode_eqb Level_eqb negb andb quiet_ms Z.add Pos.add Pos.succ
       Pos.add_carry];
  cbn [mode latch].

Lemma edges_volumeUp b :
  vol_latches_low b ->
  edges b volumeUp_events
  = [ {| at_ms := 0; on_pin := volAPin; to_level := HIGH; hold_ms := 10 |};
      {| at_ms := 10; on_pin := volBPin; to_level := HIGH; hold_ms := 10 |};
      {| at_ms := 20; on_pin := volAPin; to_level := LOW; hold_ms := 10 |};
      {| at_ms := 30; on_pin := volBPin; to_level := LOW; hold_ms := 10 |} ].
Proof.
  intros [Ha Hb]. eval_edges. unfold volAPin, volBPin in Ha, Hb.
  rewrite Ha, Hb. reflexivity.
Qed.

Lemma edges_volumeDown b :
  vol_latches_low b ->
  edges b volumeDown_events
  = [ {| at_ms := 0; on_pin := volBPin; to_level := HIGH; hold_ms := 10 |};
      {| at_ms := 10; on_pin := volAPin; to_level := HIGH; hold_ms := 10 |};
      {| at_ms := 20; on_pin := volBPin; to_level := LOW; hold_ms := 10 |};
      {| at_ms := 30; on_pin := volAPin; to_level := LOW; hold_ms := 10 |} ].
Proof.
  intros [Ha Hb]. eval_edges. unfold volAPin, volBPin in Ha, Hb.
  rewrite Ha, Hb. reflexivity.
Qed.

(** *** Actions opened in a log *)

Lemma dispatched_app es1 es2 :
  dispatched (es1 ++ es2) = dispatched es1 ++ dispatched es2.
Proof.
  induction es1 as [| e es1 IH]; [reflexivity |].
  destruct e; cbn; try exact IH.
  destruct (action_of_line s); cbn; rewrite IH; reflexivity.
Qed.

Lemma dispatched_hold held : dispatched (hold_events held) = [].
Proof. induction held as [| s held IH]; [reflexivity | exact IH]. Qed.

Lemma dispatched_press code s held rel :
  3 <= code <= 5 ->
  dispatched (press_events code s held rel)
  = match button_of_code code with
    | Some b => [b]
    | None => []
    end.
Proof.
  intros Hr. unfold press_events.
  rewrite !dispatched_app, dispatched_hold.
  assert (Hcode : code = 3 \/ code = 4 \/ code = 5) by lia.
  destruct Hcode as [-> | [-> | ->]]; reflexivity.
Qed.

(** C3: the lines right after initialisation.  [setup] configures the
    three level-held lines as inputs but switches both encoder lines to
    OUTPUT and drives them low, although no press is being emulated (the
    comment above those calls reads "Prepare all lines as Inputs").  The
    two lines stay driven through every idle poll; only the first volume
    action releases them.  So right after [setup], and after two idle
    iterations, volAPin and volBPin are driven low, not high-impedance. *)
Theorem setup_leaves_encoder_lines_driven :
  (forall script,
      exists w,
        setup (power_on script) = Some (tt, w)
        /\ reachable w
        /\ dispatched (log w) = []
        /\ map (fun p => line_of (board w p)) output_pins
           = [HiZ; HiZ; HiZ; Driven LOW; Driven LOW])
  /\ exists w,
      (setup ;; loop ;; loop) (power_on [1000; 1000]) = Some (tt, w)
      /\ reachable w
      /\ dispatched (log w) = []
      /\ map (fun p => line_of (board w p)) output_pins
         = [HiZ; HiZ; HiZ; Driven LOW; Driven LOW].
Proof.
  split.
  - intros script. exists (after setup_events (power_on script)).
    split; [apply setup_run |].
    split; [exact (reach_setup script _ (setup_run script)) |].
    split; reflexivity.
  - pose (w0 := after setup_events (power_on [1000; 1000])).
    assert (R0 : reachable w0) by exact (reach_setup _ _ (setup_run _)).
    pose proof (loop_idle w0 1000 [1000] eq_refl eq_refl) as L1.
    pose proof (reach_loop _ _ R0 L1) as R1.
    pose proof (loop_idle
                  {| board := board w0; input := [1000]; currentButton := 0;
                     log := log w0 ++ [EvRead sensorPin 1000; EvDelay 100] |}
                  1000 [] eq_refl eq_refl) as L2.
    pose proof (reach_loop _ _ R1 L2) as R2.
    eexists. split; [| split; [exact R2 |]].
    + unfold bind. rewrite setup_run. fold w0. rewrite L1, L2. reflexivity.
    + split; reflexivity.
Qed.

(** C4: one invocation of [volumeUp] and of [volumeDown], entered with
    both encoder latches low (as they are in every reachable state).  Each
    makes exactly four edges on the two encoder lines, at 0, 10, 20 and
    30 ms, each followed by a 10 ms delay; Volume Up raises A then B and
    lowers A then B, Volume Down is the same sequence with the two lines
    exchanged; afterwards both lines are high-impedance inputs. *)
Theorem volume_quadrature w :
  vol_latches_low (board w) ->
  exists wu wd,
    volumeUp w = Some (tt, wu)
    /\ volumeDown w = Some (tt, wd)
    /\ log wu = log w ++ volumeUp_events
    /\ log wd = log w ++ volumeDown_events
    /\ edges (board w) volumeUp_events
       = [ {| at_ms := 0; on_pin := volAPin; to_level := HIGH;
              hold_ms := 10 |};
           {| at_ms := 10; on_pin := volBPin; to_level := HIGH;
              hold_ms := 10 |};
           {| at_ms := 20; on_pin := volAPin; to_level := LOW;
              hold_ms := 10 |};
           {| at_ms := 30; on_pin := volBPin; to_level := LOW;
              hold_ms := 10 |} ]
    /\ edges (board w) volumeDown_events
       = map swap_edge (edges (board w) volumeUp_events)
    /\ map at_ms (edges (board w) volumeDown_events)
       = map at_ms (edges (board w) volumeUp_events)
    /\ line_of (board wu volAPin) = HiZ /\ line_of (board wu volBPin) = HiZ
    /\ line_of (board wd volAPin) = HiZ /\ line_of (board wd volBPin) = HiZ.
Proof.
  intros H. exists (after volumeUp_events w), (after volumeDown_events w).
  rewrite volumeUp_run, volumeDown_run, (edges_volumeUp _ H),
    (edges_volumeDown _ H).
  repeat split.
Qed.

Lemma volume_quadrature_witness :
  exists wu wd,
    volumeUp (power_on []) = Some (tt, wu)
    /\ volumeDown (power_on []) = Some (tt, wd)
    /\ log wu = log (power_on []) ++ volumeUp_events
    /\ log wd = log (power_on []) ++ volumeDown_events
    /\ edges (board (power_on [])) volumeUp_events
       = [ {| at_ms := 0; on_pin := volAPin; to_level := HIGH;
              hold_ms := 10 |};
           {| at_ms := 10; on_pin := volBPin; to_level := HIGH;
              hold_ms := 10 |};
           {| at_ms := 20; on_pin := volAPin; to_level := LOW;
              hold_ms := 10 |};
           {| at_ms := 30; on_pin := volBPin; to_level := LOW;
              hold_ms := 10 |} ]
    /\ edges (board (power_on [])) volumeDown_events
       = map swap_edge (edges (board (power_on [])) volumeUp_events)
    /\ map at_ms (edges (board (power_on [])) volumeDown_events)
       = map at_ms (edges (board (power_on [])) volumeUp_events)
    /\ line_of (board wu volAPin) = HiZ /\ line_of (board wu volBPin) = HiZ
    /\ line_of (board wd volAPin) = HiZ /\ line_of (board wd volBPin) = HiZ.
Proof.
  apply (volume_quadrature (power_on [])). split; reflexivity.
Defined.

(** C5: round trip of a level-held press.  From any reachable state, for
    Seek, Mode or Power (codes 3, 4, 5): if the first sample is in the
    button's band, the following samples [held] stay in it and the sample
    [rel] leaves it, the iteration returns, having pulled the line low,
    waited for release, driven it high and switched it back to input; the
    direction and the level of the affected line (indeed of every line)
    are then what they were before the iteration began. *)
Theorem level_held_round_trip w code s held rel rest :
  reachable w ->
  3 <= code <= 5 ->
  input w = s :: held ++ rel :: rest ->
  classify s = code ->
  Forall (fun x => classify x = code) held ->
  classify rel <> code ->
  exists w',
    loop w = Some (tt, w')
    /\ input w' = rest
    /\ log w' = log w ++ press_events code s held rel
    /\ mode (board w' (held_pin code)) = mode (board w (held_pin code))
    /\ latch (board w' (held_pin code)) = latch (board w (held_pin code))
    /\ line_of (board w' (held_pin code)) = line_of (board w (held_pin code))
    /\ forall p, board w' p = board w p.
Proof.
  intros Hreach Hr Hi Hc Hh Hrel.
  rewrite (loop_held_run code w s held rel rest Hr Hi Hc Hh Hrel).
  eexists. split; [reflexivity |]. cbn [board input log].
  assert (Hidle : board w (held_pin code) = idle_pin).
  { destruct (reachable_between_actions w Hreach) as [(Hp & Hm & Hs) _].
    assert (Hcode : code = 3 \/ code = 4 \/ code = 5) by lia.
    destruct Hcode as [-> | [-> | ->]]; assumption. }
  assert (Hframe : forall p,
             replay (press_events code s held rel) (board w) p = board w p)
    by (intros p; now apply replay_press_frame).
  rewrite Hframe. repeat split; auto.
Qed.

Lemma level_held_round_trip_witness :
  exists w',
    loop (after setup_events (power_on [850; 850; 850; 1000; 100]))
    = Some (tt, w')
    /\ input w' = [100]
    /\ log w' = log (after setup_events (power_on [850; 850; 850; 1000; 100]))
                ++ press_events 4 850 [850; 850] 1000
    /\ mode (board w' (held_pin 4))
       = mode (board (after setup_events
                        (power_on [850; 850; 850; 1000; 100])) (held_pin 4))
    /\ latch (board w' (held_pin 4))
       = latch (board (after setup_events
                         (power_on [850; 850; 850; 1000; 100])) (held_pin 4))
    /\ line_of (board w' (held_pin 4))
       = line_of (board (after setup_events
                           (power_on [850; 850; 850; 1000; 100]))
                    (held_pin 4))
    /\ forall p,
        board w' p
        = board (after setup_events (power_on [850; 850; 850; 1000; 100])) p.
Proof.
  apply (level_held_round_trip
           (after setup_events (power_on [850; 850; 850; 1000; 100]))
           4 850 [850; 850] 1000 [100]).
  - exact (reach_setup _ _ (setup_run _)).
  - lia.
  - reflexivity.
  - reflexivity.
  - repeat constructor.
  - vm_compute. discriminate.
Defined.

(** *** The seek line during a press *)

Lemma line_history_app p es1 es2 :
  forall b,
    line_history p b (es1 ++ es2)
    = line_history p b es1 ++ line_history p (replay es1 b) es2.
Proof.
  induction es1 as [| e es1 IH]; intros b; [reflexivity |].
  cbn [app line_history]. rewrite IH. reflexivity.
Qed.

Lemma line_history_polls p held rel b :
  line_history p b (hold_events held ++ [EvRead sensorPin rel])
  = repeat (line_of (b p)) (2 * List.length held + 1).
Proof.
  induction held as [| s held IH]; [reflexivity |].
  cbn [hold_events flat_map app line_history apply_event List.length].
  fold (hold_events held). rewrite IH.
  replace (2 * S (List.length held) + 1)%nat
    with (S (S (2 * List.length held + 1))) by lia.
  reflexivity.
Qed.

Lemma Line_eqb_eq a b : Line_eqb a b = true -> a = b.
Proof. destruct a as [| [|]], b as [| [|]]; (discriminate || reflexivity). Qed.

Lemma last_cons (x d : Line) l : last (x :: l) d = last l x.
Proof.
  revert x d. induction l as [| y l IH]; intros x d; [reflexivity |].
  change (last (x :: y :: l) d) with (last (y :: l) d).
  rewrite !IH. reflexivity.
Qed.

Lemma changes_app l1 :
  forall prev l2,
    changes prev (l1 ++ l2) = changes prev l1 ++ changes (last l1 prev) l2.
Proof.
  induction l1 as [| x l1 IH]; intros prev l2; [reflexivity |].
  rewrite last_cons. cbn [app changes].
  destruct (Line_eqb prev x) eqn:E.
  - apply Line_eqb_eq in E. subst x. apply IH.
  - rewrite IH. reflexivity.
Qed.

Lemma changes_repeat x n : changes x (repeat x n) = [].
Proof.
  induction n as [| n IH]; [reflexivity |]. cbn.
  replace (Line_eqb x x) with true by (destruct x as [| [|]]; reflexivity).
  exact IH.
Qed.

Lemma last_repeat (x d : Line) n : last (repeat x (S n)) d = x.
Proof.
  induction n as [| n IH]; [reflexivity |].
  change (repeat x (S (S n))) with (x :: repeat x (S n)).
  cbn [last]. cbn [repeat] in *. exact IH.
Qed.

Lemma elapsed_polls held rel :
  elapsed (hold_events held ++ [EvRead sensorPin rel])
  = 50 * Z.of_nat (List.length held).
Proof.
  induction held as [| s held IH]; [reflexivity |].
  cbn [hold_events flat_map app List.length]. fold (hold_events held).
  unfold elapsed in *. cbn [fold_right]. rewrite IH. lia.
Qed.

Ltac eval_seek Hs :=
  unfold seekPin in Hs;
  cbv [line_history down_events up_events replay fold_left apply_event upd
       line_of held_pin seekPin sensorPin Z.eqb Pos.eqb];
  cbn [mode latch]; rewrite ?Hs; cbn [mode latch idle_pin].

Lemma seek_down_history s b :
  b seekPin = idle_pin ->
  line_history seekPin b (down_events 3 s)
  = [HiZ; HiZ; Driven LOW; Driven LOW]
  /\ line_of (replay (down_events 3 s) b seekPin) = Driven LOW.
Proof. intros Hs. eval_seek Hs. split; reflexivity. Qed.

Lemma seek_up_history b :
  line_of (b seekPin) = Driven LOW ->
  line_history seekPin b (up_events 3)
  = [Driven LOW; Driven HIGH; HiZ; HiZ].
Proof.
  unfold line_of. destruct (b seekPin) as [[|] [|]] eqn:Hs;
    cbn [mode latch]; try discriminate; intros _.
  eval_seek Hs. reflexivity.
Qed.

(** A Seek press as the code sees it.  From any reachable state, if the
    first sample and the samples [held] polled after it classify as Seek
    (code 3, samples 620..795) and the next one does not, the iteration
    returns and the seek line goes through
    exactly the states driven-low, driven-high, input: one down
    transition, one up transition and the return to idle, whatever the
    length of the hold.  The line is driven low after every call of the
    hold, which lasts 50 ms per held poll, and Seek is the one action
    dispatched. *)
Theorem seek_held_then_released w s held rel rest :
  reachable w ->
  input w = s :: held ++ rel :: rest ->
  classify s = 3 ->
  Forall (fun x => classify x = 3) held ->
  classify rel <> 3 ->
  exists w',
    loop w = Some (tt, w')
    /\ input w' = rest
    /\ log w' = log w ++ press_events 3 s held rel
    /\ line_of (board w seekPin) = HiZ
    /\ transitions seekPin (board w) (press_events 3 s held rel)
       = [Driven LOW; Driven HIGH; HiZ]
    /\ Forall (fun l => l = Driven LOW)
         (line_history seekPin (replay (down_events 3 s) (board w))
            (hold_events held ++ [EvRead sensorPin rel]))
    /\ elapsed (hold_events held ++ [EvRead sensorPin rel])
       = 50 * Z.of_nat (List.length held)
    /\ dispatched (press_events 3 s held rel) = [Seek]
    /\ board w' seekPin = board w seekPin.
Proof.
  intros Hreach Hi Hc Hh Hrel.
  destruct (reachable_between_actions w Hreach) as [(Hp & Hm & Hs) _].
  rewrite (loop_held_run 3 w s held rel rest ltac:(lia) Hi Hc Hh Hrel).
  eexists. split; [reflexivity |]. cbn [board input log].
  destruct (seek_down_history s (board w) Hs) as [Hdown Hlow].
  assert (Hpolls :
            line_history seekPin (replay (down_events 3 s) (board w))
              (hold_events held ++ [EvRead sensorPin rel])
            = repeat (Driven LOW) (2 * List.length held + 1))
    by (rewrite line_history_polls, Hlow; reflexivity).
  repeat split.
  - rewrite Hs. reflexivity.
  - unfold transitions, press_events.
    rewrite (line_history_app _ (down_events 3 s)).
    rewrite (line_history_app _ (hold_events held ++ [EvRead sensorPin rel])
               (up_events 3)).
    rewrite Hdown, Hpolls, replay_polls.
    rewrite (seek_up_history _ Hlow), Hs.
    rewrite !changes_app, changes_repeat.
    replace (2 * List.length held + 1)%nat
      with (S (2 * List.length held)) by lia.
    rewrite last_repeat. reflexivity.
  - rewrite Hpolls. apply Forall_forall. intros l Hl.
    exact (repeat_spec _ _ _ Hl).
  - apply elapsed_polls.
  - exact (dispatched_press 3 s held rel ltac:(lia)).
  - exact (replay_press_frame 3 s held rel (board w) seekPin ltac:(lia) Hs).
Qed.

Lemma seek_held_then_released_witness :
  exists w',
    loop (after setup_events (power_on [700; 650; 795; 500; 1000]))
    = Some (tt, w')
    /\ input w' = [1000]
    /\ log w' = log (after setup_events (power_on [700; 650; 795; 500; 1000]))
                ++ press_events 3 700 [650; 795] 500
    /\ line_of (board (after setup_events
                         (power_on [700; 650; 795; 500; 1000])) seekPin) = HiZ
    /\ transitions seekPin
         (board (after setup_events (power_on [700; 650; 795; 500; 1000])))
         (press_events 3 700 [650; 795] 500)
       = [Driven LOW; Driven HIGH; HiZ]
    /\ Forall (fun l => l = Driven LOW)
         (line_history seekPin
            (replay (down_events 3 700)
               (board (after setup_events
                         (power_on [700; 650; 795; 500; 1000]))))
            (hold_events [650; 795] ++ [EvRead sensorPin 500]))
    /\ elapsed (hold_events [650; 795] ++ [EvRead sensorPin 500])
       = 50 * Z.of_nat (List.length [650; 795])
    /\ dispatched (press_events 3 700 [650; 795] 500) = [Seek]
    /\ board w' seekPin
       = board (after setup_events (power_on [700; 650; 795; 500; 1000]))
           seekPin.
Proof.
  apply (seek_held_then_released
           (after setup_events (power_on [700; 650; 795; 500; 1000]))
           700 [650; 795] 500 [1000]).
  - exact (reach_setup _ _ (setup_run _)).
  - reflexivity.
  - reflexivity.
  - repeat constructor.
  - vm_compute. discriminate.
Defined.

(** C9: an iteration whose sample classifies as None.  It returns, makes
    no [pinMode] or [digitalWrite] call at all (the log grows by the read
    and the 100 ms delay only) and leaves the direction and the level of
    all five lines as they were. *)
Theorem idle_poll_changes_no_pin w s rest :
  input w = s :: rest ->
  classify s = 0 ->
  exists w',
    loop w = Some (tt, w')
    /\ log w' = log w ++ [EvRead sensorPin s; EvDelay 100]
    /\ board w' = board w
    /\ forall p, In p output_pins ->
                 mode (board w' p) = mode (board w p)
                 /\ latch (board w' p) = latch (board w p).
Proof.
  intros Hi Hc. rewrite (loop_idle w s rest Hi Hc).
  eexists. split; [reflexivity |]. cbn [board log]. auto.
Qed.

Lemma idle_poll_changes_no_pin_witness :
  exists w',
    loop (after setup_events (power_on [1000; 700])) = Some (tt, w')
    /\ log w' = log (after setup_events (power_on [1000; 700]))
                ++ [EvRead sensorPin 1000; EvDelay 100]
    /\ board w' = board (after setup_events (power_on [1000; 700]))
    /\ forall p, In p output_pins ->
                 mode (board w' p)
                 = mode (board (after setup_events (power_on [1000; 700])) p)
                 /\ latch (board w' p)
                    = latch (board (after setup_events
                                      (power_on [1000; 700])) p).
Proof.
  apply (idle_poll_changes_no_pin
           (after setup_events (power_on [1000; 700])) 1000 [700]);
    reflexivity.
Defined.

(** C10: one poll dispatches at most one action.  Whenever an iteration
    returns, [currentButton] holds the classification of the first sample
    it read (the samples polled while waiting for release never reach it),
    and the log of the iteration opens at most one action branch: none when
    that classification is None, otherwise exactly the branch of that
    button. *)
Theorem one_action_per_iteration w w' :
  loop w = Some (tt, w') ->
  exists s rest delta,
    input w = s :: rest
    /\ currentButton w' = classify s
    /\ log w' = log w ++ delta
    /\ dispatched delta
       = match button_of_code (classify s) with
         | Some BNone | None => []
         | Some b => [b]
         end
    /\ (List.length (dispatched delta) <= 1)%nat.
Proof.
  intros H. apply loop_inv in H.
  destruct H as (s & rest & Hi & [[E ->] | [[E ->] | [[E ->] | [E H]]]]).
  - exists s, rest, [EvRead sensorPin s; EvDelay 100].
    rewrite E. cbn. repeat split; auto.
  - exists s, rest. eexists. rewrite E.
    cbn [currentButton log]. repeat split; [assumption |]. cbn. lia.
  - exists s, rest. eexists. rewrite E.
    cbn [currentButton log]. repeat split; [assumption |]. cbn. lia.
  - destruct H as (held & rel & _ & _ & _ & ->).
    exists s, rest, (press_events (classify s) s held rel).
    cbn [currentButton log]. rewrite (dispatched_press _ _ _ _ E).
    assert (Hcode : classify s = 3 \/ classify s = 4 \/ classify s = 5)
      by lia.
    destruct Hcode as [-> | [-> | ->]]; cbn; auto.
Qed.

Lemma one_action_per_iteration_witness :
  exists s rest delta,
    input (power_on [700; 1000; 100]) = s :: rest
    /\ currentButton
         {| board := replay (press_events 3 700 [] 1000) reset_board;
            input := [100]; currentButton := 3;
            log := press_events 3 700 [] 1000 |} = classify s
    /\ log {| board := replay (press_events 3 700 [] 1000) reset_board;
              input := [100]; currentButton := 3;
              log := press_events 3 700 [] 1000 |}
       = log (power_on [700; 1000; 100]) ++ delta
    /\ dispatched delta
       = match button_of_code (classify s) with
         | Some BNone | None => []
         | Some b => [b]
         end
    /\ (List.length (dispatched delta) <= 1)%nat.
Proof.
  apply (one_action_per_iteration (power_on [700; 1000; 100])
           {| board := replay (press_events 3 700 [] 1000) reset_board;
              input := [100]; currentButton := 3;
              log := press_events 3 700 [] 1000 |}).
  reflexivity.
Defined.

(** ** Further properties of the sketch *)

Lemma elapsed_app es1 es2 : elapsed (es1 ++ es2) = elapsed es1 + elapsed es2.
Proof.
  unfold elapsed. induction es1 as [| e es1 IH]; [reflexivity |].
  cbn [app fold_right]. rewrite IH. destruct e; lia.
Qed.



(** *** Pins a log leaves alone *)

Lemma apply_event_untouched e b p :
  touches p e = false -> apply_event e b p = b p.
Proof.
  destruct e as [| | q [|] | q l | |]; cbn [touches apply_event];
    intros H; try reflexivity; unfold upd;
    rewrite (Z.eqb_sym p q), H; reflexivity.
Qed.

Lemma replay_untouched es :
  forall b p,
    forallb (fun e => negb (touches p e)) es = true ->
    replay es b p = b p.
Proof.
  induction es as [| e es IH]; intros b p H; [reflexivity |].
  cbn [forallb] in H. apply andb_prop in H. destruct H as [He Hes].
  apply negb_true_iff in He.
  change (replay (e :: es) b) with (replay es (apply_event e b)).
  rewrite (IH _ _ Hes). exact (apply_event_untouched _ _ _ He).
Qed.

Lemma line_history_untouched es :
  forall b p,
    forallb (fun e => negb (touches p e)) es = true ->
    line_history p b es = repeat (line_of (b p)) (List.length es).
Proof.
  induction es as [| e es IH]; intros b p H; [reflexivity |].
  cbn [forallb] in H. apply andb_prop in H. destruct H as [He Hes].
  apply negb_true_iff in He.
  cbn [line_history List.length repeat].
  rewrite (IH _ _ Hes), (apply_event_untouched _ _ _ He). reflexivity.
Qed.

Lemma encoder_events_untouched p :
  is_encoder_pin p = false ->
  forallb (fun e => negb (touches p e)) volumeUp_events = true
  /\ forallb (fun e => negb (touches p e)) volumeDown_events = true.
Proof.
  unfold is_encoder_pin. intros H. apply orb_false_elim in H.
  destruct H as [Ha Hb]. rewrite Z.eqb_sym in Ha. rewrite Z.eqb_sym in Hb.
  cbv [volumeUp_events volumeDown_events setupVolume_events
       resetVolume_events app forallb touches].
  rewrite Ha, Hb. split; reflexivity.
Qed.

Lemma replay_volume_pins b p :
  replay volumeUp_events b p = (if is_encoder_pin p then idle_pin else b p)
  /\ replay volumeDown_events b p
     = (if is_encoder_pin p then idle_pin else b p).
Proof.
  destruct (is_encoder_pin p) eqn:E.
  - unfold is_encoder_pin in E. apply orb_true_iff in E.
    destruct E as [E | E]; apply Z.eqb_eq in E; subst p; split; reflexivity.
  - destruct (encoder_events_untouched p E) as [Hu Hd].
    split; apply replay_untouched; assumption.
Qed.

(** X2: the two encoder routines on the pins.  Started in any state,
    [volumeUp] and [volumeDown] return, having appended to the log exactly
    their own calls, whose delays add up to 40 ms; they read no sample and
    leave [currentButton] alone; afterwards both encoder pins
    are inputs with a cleared latch and every other pin is exactly as it
    was, so the two routines end in the same pin state. *)
Theorem volume_routines_frame w :
  exists wu wd,
    volumeUp w = Some (tt, wu)
    /\ volumeDown w = Some (tt, wd)
    /\ log wu = log w ++ volumeUp_events
    /\ log wd = log w ++ volumeDown_events
    /\ (forall p,
           board wu p = if is_encoder_pin p then idle_pin else board w p)
    /\ (forall p, board wd p = board wu p)
    /\ input wu = input w /\ input wd = input w
    /\ currentButton wu = currentButton w
    /\ currentButton wd = currentButton w
    /\ elapsed volumeUp_events = 40
    /\ elapsed volumeDown_events = 40.
Proof.
  exists (after volumeUp_events w), (after volumeDown_events w).
  rewrite volumeUp_run, volumeDown_run.
  cbn [after board input currentButton log].
  repeat split.
  - intros p. exact (proj1 (replay_volume_pins (board w) p)).
  - intros p. destruct (replay_volume_pins (board w) p) as [Hu Hd].
    rewrite Hu, Hd. reflexivity.
Qed.

Lemma setup_any w : setup w = Some (tt, after setup_events w).
Proof. unfold setup. to_hw. repeat mstep. settle. Qed.

(** X3: [setup] from any pin state.  Whatever the pins were, [setup]
    returns without reading the ADC, leaves the power, mode and seek pins
    as inputs with a cleared latch and the two encoder pins as outputs
    driving low, and changes no other pin. *)
Theorem setup_from_any_state w :
  exists w',
    setup w = Some (tt, w')
    /\ input w' = input w
    /\ log w' = log w ++ setup_events
    /\ map (board w') output_pins
       = [idle_pin; idle_pin; idle_pin; driven_low; driven_low]
    /\ forall p,
        board w' p
        = if existsb (Z.eqb p) output_pins then board w' p else board w p.
Proof.
  exists (after setup_events w). rewrite setup_any.
  cbn [after board input log]. repeat split.
  intros p. destruct (existsb (Z.eqb p) output_pins) eqn:E; [reflexivity |].
  apply replay_untouched.
  cbn [existsb output_pins] in E.
  repeat (apply orb_false_elim in E; destruct E as [? E]).
  cbv [setup_events forallb touches].
  repeat match goal with
         | H : (p =? ?q) = false |- _ =>
             rewrite (Z.eqb_sym p q) in H; rewrite H; clear H
         end.
  reflexivity.
Qed.

Lemma existsb_volume_app l1 l2 :
  existsb is_volume (l1 ++ l2) = existsb is_volume l1 || existsb is_volume l2.
Proof. apply existsb_app. Qed.

(** X4: the pins between iterations.  In every state reached by [setup]
    followed by any number of returning iterations, the power, mode and
    seek pins are inputs with a cleared latch; the two encoder pins are
    outputs driving low as long as no volume action has been dispatched,
    and inputs with a cleared latch from the first volume action on. *)
Theorem lines_between_iterations w :
  reachable w ->
  map (board w) output_pins
  = [idle_pin; idle_pin; idle_pin;
     if existsb is_volume (dispatched (log w)) then idle_pin else driven_low;
     if existsb is_volume (dispatched (log w)) then idle_pin else driven_low].
Proof.
  induction 1 as [script w H | w w' _ IH H].
  - rewrite setup_run in H. inversion H; subst w; clear H. reflexivity.
  - cbn [map output_pins] in IH |- *.
    injection IH as Hp Hm Hs Ha Hb.
    apply loop_inv in H.
    destruct H as (s & rest & Hi & [[E ->] | [[E ->] | [[E ->] | [E H]]]]);
      cbn [board log].
    + rewrite dispatched_app. cbn [dispatched]. rewrite app_nil_r.
      congruence.
    + rewrite !dispatched_app, existsb_volume_app.
      cbn [dispatched action_of_line String.eqb app existsb is_volume].
      rewrite orb_true_r.
      rewrite !(proj2 (replay_volume_pins _ _)). cbn. congruence.
    + rewrite !dispatched_app, existsb_volume_app.
      cbn [dispatched action_of_line String.eqb app existsb is_volume].
      rewrite orb_true_r.
      rewrite !(proj1 (replay_volume_pins _ _)). cbn. congruence.
    + destruct H as (held & rel & _ & _ & _ & ->). cbn [board log].
      assert (Hidle : board w (held_pin (classify s)) = idle_pin).
      { assert (Hcode : classify s = 3 \/ classify s = 4 \/ classify s = 5)
          by lia.
        destruct Hcode as [-> | [-> | ->]]; assumption. }
      rewrite !(replay_press_frame _ _ _ _ _ _ E Hidle).
      rewrite dispatched_app, existsb_volume_app, (dispatched_press _ _ _ _ E).
      assert (Hcode : classify s = 3 \/ classify s = 4 \/ classify s = 5)
        by lia.
      destruct Hcode as [-> | [-> | ->]]; cbn; rewrite orb_false_r;
        congruence.
Qed.

Lemma lines_between_iterations_witness :
  exists w,
    loops 2 (after setup_events (power_on [1000; 500; 700])) = Some (tt, w)
    /\ reachable w
    /\ input w = [700]
    /\ dispatched (log w) = [VolumeUp]
    /\ map (board w) output_pins
       = [idle_pin; idle_pin; idle_pin;
          if existsb is_volume (dispatched (log w))
          then idle_pin else driven_low;
          if existsb is_volume (dispatched (log w))
          then idle_pin else driven_low].
Proof.
  pose (w0 := after setup_events (power_on [1000; 500; 700])).
  assert (R0 : reachable w0) by exact (reach_setup _ _ (setup_run _)).
  pose (w1 := {| board := board w0; input := [500; 700]; currentButton := 0;
                 log := log w0 ++ [EvRead sensorPin 1000; EvDelay 100] |}).
  assert (L1 : loop w0 = Some (tt, w1))
    by exact (loop_idle w0 1000 [500; 700] eq_refl eq_refl).
  pose (w2 := {| board := replay volumeUp_events (board w1); input := [700];
                 currentButton := 2;
                 log := log w1 ++ [EvRead sensorPin 500; EvPrintln "Volume Up"]
                        ++ volumeUp_events ++ [EvDelay 50; EvDelay 100] |}).
  assert (L2 : loop w1 = Some (tt, w2))
    by exact (loop_volumeUp w1 500 [700] eq_refl eq_refl).
  assert (R2 : reachable w2)
    by exact (reach_loop _ _ (reach_loop _ _ R0 L1) L2).
  exists w2. split.
  - cbn [loops]. unfold bind. fold w0. rewrite L1, L2. reflexivity.
  - split; [exact R2 |]. split; [reflexivity |]. split; [reflexivity |].
    exact (lines_between_iterations w2 R2).
Defined.

Lemma reads_hold held :
  List.length (filter is_read (hold_events held)) = List.length held.
Proof.
  induction held as [| s held IH]; [reflexivity |].
  cbn [hold_events flat_map app filter is_read List.length].
  fold (hold_events held). rewrite IH. reflexivity.
Qed.

Lemma reads_press code s held rel :
  List.length (filter is_read (press_events code s held rel))
  = S (S (List.length held)).
Proof.
  unfold press_events. rewrite !filter_app, !length_app, reads_hold.
  cbn. lia.
Qed.

Lemma elapsed_press code s held rel :
  elapsed (press_events code s held rel)
  = 50 * Z.of_nat (List.length held) + 100.
Proof.
  unfold press_events.
  rewrite (elapsed_app (down_events code s)),
    (elapsed_app (hold_events held ++ [EvRead sensorPin rel])), elapsed_polls.
  unfold elapsed. cbn. lia.
Qed.

(** X5: samples and time taken by one iteration.  An iteration that
    returns has read its first sample [s] and the samples [waited] of the
    release wait, one [analogRead] each.  For None it took 100 ms of
    delays and for a volume button 190 ms, with nothing waited for; for a
    level-held button it waited for at least one further sample and took
    50 ms per sample waited for plus 50 ms. *)
Theorem iteration_duration w w' :
  loop w = Some (tt, w') ->
  exists s waited delta,
    input w = s :: waited ++ input w'
    /\ log w' = log w ++ delta
    /\ List.length (filter is_read delta) = S (List.length waited)
    /\ (List.length waited =? 0)%nat = (classify s <? 3)
    /\ elapsed delta
       = if classify s <? 3 then pulse_ms s
         else 50 * Z.of_nat (List.length waited) + 50.
Proof.
  intros H. apply loop_inv in H.
  destruct H as (s & rest & Hi & [[E ->] | [[E ->] | [[E ->] | [E H]]]]).
  - exists s, []. eexists. cbn [app input log]. unfold pulse_ms.
    rewrite E. repeat split; try assumption; reflexivity.
  - exists s, []. eexists. cbn [app input log]. unfold pulse_ms.
    rewrite E. repeat split; try assumption; reflexivity.
  - exists s, []. eexists. cbn [app input log]. unfold pulse_ms.
    rewrite E. repeat split; try assumption; reflexivity.
  - destruct H as (held & rel & Hrest & _ & _ & ->).
    exists s, (held ++ [rel]), (press_events (classify s) s held rel).
    cbn [input log].
    replace (classify s <? 3) with false by (symmetry; apply Z.ltb_ge; lia).
    rewrite reads_press, elapsed_press, length_app. cbn [List.length].
    repeat split.
    + rewrite Hi, Hrest, <- app_assoc. reflexivity.
    + f_equal. lia.
    + apply Nat.eqb_neq. lia.
    + lia.
Qed.

Lemma iteration_duration_witness :
  exists s waited delta,
    input (power_on [850; 850; 1000; 100]) = s :: waited ++ [100]
    /\ press_events 4 850 [850] 1000 = [] ++ delta
    /\ List.length (filter is_read delta) = S (List.length waited)
    /\ (List.length waited =? 0)%nat = (classify s <? 3)
    /\ elapsed delta
       = if classify s <? 3 then pulse_ms s
         else 50 * Z.of_nat (List.length waited) + 50.
Proof.
  apply (iteration_duration (power_on [850; 850; 1000; 100])
           {| board := replay (press_events 4 850 [850] 1000) reset_board;
              input := [100]; currentButton := 4;
              log := press_events 4 850 [850] 1000 |}).
  reflexivity.
Defined.

Lemma loop_no_wait w s rest :
  input w = s :: rest ->
  classify s < 3 ->
  exists w' delta,
    loop w = Some (tt, w')
    /\ input w' = rest
    /\ log w' = log w ++ delta
    /\ dispatched delta = pulse_of s
    /\ elapsed delta = pulse_ms s.
Proof.
  intros Hi Hlt. pose proof (classify_codes s) as Hc.
  assert (Hcase : classify s = 0 \/ classify s = 1 \/ classify s = 2) by lia.
  unfold pulse_of, pulse_ms.
  destruct Hcase as [E | [E | E]]; rewrite E.
  - rewrite (loop_idle _ _ _ Hi E). do 2 eexists. repeat split.
  - rewrite (loop_volumeDown _ _ _ Hi E). do 2 eexists. repeat split.
  - rewrite (loop_volumeUp _ _ _ Hi E). do 2 eexists. repeat split.
Qed.

(** X6: polling while no level-held button is pressed.  If the next
    samples of the ADC all classify as None, Volume Down or Volume Up, then
    as many iterations as there are samples return, each consuming exactly
    one sample; the actions dispatched are, in order, one volume action
    per volume sample (a held volume button repeats once per poll), and
    the delays add up to 190 ms per volume sample and 100 ms per idle
    one. *)
Theorem polls_without_held_buttons script :
  forall w rest,
    Forall (fun s => classify s < 3) script ->
    input w = script ++ rest ->
    exists w' delta,
      loops (List.length script) w = Some (tt, w')
      /\ input w' = rest
      /\ log w' = log w ++ delta
      /\ dispatched delta = flat_map pulse_of script
      /\ elapsed delta = fold_right (fun s acc => pulse_ms s + acc) 0 script.
Proof.
  induction script as [| s script IH]; intros w rest Hall Hi.
  - exists w, []. cbn. rewrite app_nil_r. auto.
  - inversion Hall as [| ? ? Hs Hall']; subst.
    destruct (loop_no_wait w s (script ++ rest) Hi Hs)
      as (w1 & d1 & Hrun & Hi1 & Hl1 & Hd1 & He1).
    destruct (IH w1 rest Hall' Hi1) as (w' & d2 & Hrun2 & Hi2 & Hl2 & Hd2 & He2).
    exists w', (d1 ++ d2).
    cbn [List.length loops flat_map fold_right].
    unfold bind at 1. rewrite Hrun, Hrun2.
    rewrite dispatched_app, elapsed_app, Hd1, Hd2, He1, He2, Hl2, Hl1,
      app_assoc.
    auto.
Qed.

Lemma polls_without_held_buttons_witness :
  exists w' delta,
    loops (List.length [500; 500; 1000; 100])
      (after setup_events (power_on [500; 500; 1000; 100; 700]))
    = Some (tt, w')
    /\ input w' = [700]
    /\ log w' = log (after setup_events
                       (power_on [500; 500; 1000; 100; 700])) ++ delta
    /\ dispatched delta = flat_map pulse_of [500; 500; 1000; 100]
    /\ elapsed delta
       = fold_right (fun s acc => pulse_ms s + acc) 0 [500; 500; 1000; 100].
Proof.
  apply (polls_without_held_buttons [500; 500; 1000; 100]
           (after setup_events (power_on [500; 500; 1000; 100; 700])) [700]).
  - repeat constructor.
  - reflexivity.
Defined.

(** *** Any level-held line during its press *)

Lemma hold_untouched p held rel :
  forallb (fun e => negb (touches p e))
    (hold_events held ++ [EvRead sensorPin rel]) = true.
Proof. induction held as [| s held IH]; [reflexivity | exact IH]. Qed.

Lemma press_untouched p code s held rel :
  (p =? held_pin code) = false ->
  forallb (fun e => negb (touches p e)) (press_events code s held rel) = true.
Proof.
  intros H. rewrite Z.eqb_sym in H. unfold press_events.
  rewrite (forallb_app _ (down_events code s)).
  rewrite (forallb_app _ (hold_events held ++ [EvRead sensorPin rel])).
  rewrite hold_untouched.
  cbv [down_events up_events forallb touches]. rewrite H. reflexivity.
Qed.

Ltac eval_held Hs :=
  unfold seekPin, modePin, powerPin in Hs;
  cbv [line_history down_events up_events replay fold_left apply_event upd
       line_of held_pin seekPin modePin powerPin sensorPin Z.eqb Pos.eqb];
  cbn [mode latch]; rewrite ?Hs; cbn [mode latch idle_pin].

Lemma held_down_history code s b :
  3 <= code <= 5 ->
  b (held_pin code) = idle_pin ->
  line_history (held_pin code) b (down_events code s)
  = [HiZ; HiZ; Driven LOW; Driven LOW]
  /\ line_of (replay (down_events code s) b (held_pin code)) = Driven LOW.
Proof.
  intros Hr Hs.
  assert (Hcode : code = 3 \/ code = 4 \/ code = 5) by lia.
  destruct Hcode as [-> | [-> | ->]]; cbn [held_pin Z.eqb Pos.eqb] in Hs;
    eval_held Hs; split; reflexivity.
Qed.

Lemma held_up_history code b :
  3 <= code <= 5 ->
  line_of (b (held_pin code)) = Driven LOW ->
  line_history (held_pin code) b (up_events code)
  = [Driven LOW; Driven HIGH; HiZ; HiZ].
Proof.
  intros Hr. unfold line_of.
  destruct (b (held_pin code)) as [[|] [|]] eqn:Hs;
    cbn [mode latch]; try discriminate; intros _.
  assert (Hcode : code = 3 \/ code = 4 \/ code = 5) by lia.
  destruct Hcode as [-> | [-> | ->]]; cbn [held_pin Z.eqb Pos.eqb] in Hs;
    eval_held Hs; reflexivity.
Qed.

Lemma press_transitions code s held rel b p :
  3 <= code <= 5 ->
  b (held_pin code) = idle_pin ->
  transitions p b (press_events code s held rel)
  = if p =? held_pin code then [Driven LOW; Driven HIGH; HiZ] else [].
Proof.
  intros Hr Hs. destruct (Z.eqb_spec p (held_pin code)) as [-> | Hne].
  - destruct (held_down_history code s b Hr Hs) as [Hdown Hlow].
    unfold transitions, press_events.
    rewrite (line_history_app _ (down_events code s)).
    rewrite (line_history_app _
               (hold_events held ++ [EvRead sensorPin rel]) (up_events code)).
    rewrite Hdown, line_history_polls, replay_polls, Hlow.
    rewrite (held_up_history code _ Hr Hlow), Hs.
    rewrite !changes_app, changes_repeat.
    replace (2 * List.length held + 1)%nat
      with (S (2 * List.length held)) by lia.
    rewrite last_repeat. reflexivity.
  - apply Z.eqb_neq in Hne. unfold transitions.
    rewrite (line_history_untouched _ _ _
               (press_untouched p code s held rel Hne)).
    apply changes_repeat.
Qed.

(** X7: the lines during a Seek, Mode or Power press.  From any reachable
    state, for each of the three level-held buttons, a press that is
    eventually released makes its own line go through exactly driven-low,
    driven-high, input, and no other pin changes state at any point of
    the iteration. *)
Theorem held_press_line_states w code s held rel rest :
  reachable w ->
  3 <= code <= 5 ->
  input w = s :: held ++ rel :: rest ->
  classify s = code ->
  Forall (fun x => classify x = code) held ->
  classify rel <> code ->
  exists w' delta,
    loop w = Some (tt, w')
    /\ log w' = log w ++ delta
    /\ forall p,
        transitions p (board w) delta
        = if p =? held_pin code then [Driven LOW; Driven HIGH; HiZ] else [].
Proof.
  intros Hreach Hr Hi Hc Hh Hrel.
  rewrite (loop_held_run code w s held rel rest Hr Hi Hc Hh Hrel).
  do 2 eexists. split; [reflexivity |]. split; [reflexivity |].
  intros p. apply press_transitions; [assumption |].
  destruct (reachable_between_actions w Hreach) as [(Hp & Hm & Hs) _].
  assert (Hcode : code = 3 \/ code = 4 \/ code = 5) by lia.
  destruct Hcode as [-> | [-> | ->]]; assumption.
Qed.

Lemma held_press_line_states_witness :
  exists w' delta,
    loop (after setup_events (power_on [950; 950; 1000])) = Some (tt, w')
    /\ log w' = log (after setup_events (power_on [950; 950; 1000])) ++ delta
    /\ forall p,
        transitions p (board (after setup_events (power_on [950; 950; 1000])))
          delta
        = if p =? held_pin 5 then [Driven LOW; Driven HIGH; HiZ] else [].
Proof.
  apply (held_press_line_states
           (after setup_events (power_on [950; 950; 1000]))
           5 950 [950] 1000 []).
  - exact (reach_setup _ _ (setup_run _)).
  - lia.
  - reflexivity.
  - reflexivity.
  - repeat constructor.
  - vm_compute. discriminate.
Defined.

(** C6: Seek held for three polls, with one sample on the band's lower
    threshold.  The samples 700, 619, 700 all lie in the Seek band
    [619, 796) of the specification and 1000 does not, so this is a Seek
    hold of three polls followed by a release.  The code classifies 619 as
    None: the release wait of the first iteration ends on it, the seek
    line is driven high and released, and the next iteration sees 700 and
    presses again.  Two iterations dispatch Seek twice and the seek line
    goes low, high, input, low, high, input: two pulses during one hold. *)
Theorem seek_hold_split_at_threshold :
  map Bands.classify_spec [700; 619; 700; 1000] = [Seek; Seek; Seek; BNone]
  /\ map classify [700; 619; 700; 1000] = [3; 0; 3; 0]
  /\ exists w1 w2,
      loop (after setup_events (power_on [700; 619; 700; 1000]))
      = Some (tt, w1)
      /\ input w1 = [700; 1000]
      /\ line_of (board w1 seekPin) = HiZ
      /\ loops 2 (after setup_events (power_on [700; 619; 700; 1000]))
         = Some (tt, w2)
      /\ input w2 = []
      /\ log w2
         = log (after setup_events (power_on [700; 619; 700; 1000]))
           ++ press_events 3 700 [] 619 ++ press_events 3 700 [] 1000
      /\ dispatched (press_events 3 700 [] 619 ++ press_events 3 700 [] 1000)
         = [Seek; Seek]
      /\ transitions seekPin
           (board (after setup_events (power_on [700; 619; 700; 1000])))
           (press_events 3 700 [] 619 ++ press_events 3 700 [] 1000)
         = [Driven LOW; Driven HIGH; HiZ; Driven LOW; Driven HIGH; HiZ].
Proof.
  split; [reflexivity |]. split; [reflexivity |].
  pose (w0 := after setup_events (power_on [700; 619; 700; 1000])).
  pose (w1 := {| board := replay (press_events 3 700 [] 619) (board w0);
                 input := [700; 1000]; currentButton := 3;
                 log := log w0 ++ press_events 3 700 [] 619 |}).
  assert (L1 : loop w0 = Some (tt, w1)).
  { apply (loop_held_run 3 w0 700 [] 619 [700; 1000]);
      [lia | reflexivity | reflexivity | constructor
      | vm_compute; discriminate]. }
  pose (w2 := {| board := replay (press_events 3 700 [] 1000) (board w1);
                 input := []; currentButton := 3;
                 log := log w1 ++ press_events 3 700 [] 1000 |}).
  assert (L2 : loop w1 = Some (tt, w2)).
  { apply (loop_held_run 3 w1 700 [] 1000 []);
      [lia | reflexivity | reflexivity | constructor
      | vm_compute; discriminate]. }
  exists w1, w2. fold w0.
  split; [exact L1 |]. split; [reflexivity |]. split; [reflexivity |].
  split.
  { cbn [loops]. unfold bind. rewrite L1, L2. reflexivity. }
  split; [reflexivity |].
  split.
  { unfold w2, w1. cbn [log]. rewrite <- app_assoc. reflexivity. }
  split; [reflexivity |].
  vm_compute. reflexivity.
Qed.
